(** * consulate.api.lock: the Lock endpoint and its renewal thread

    A shallow embedding of [consulate/api/lock.py].  The session endpoint,
    the request adapter and the helpers inherited from [base.Endpoint]
    ([_put_response_body], [_build_uri]) live outside this module; they are
    the collaborator, modelled as an oracle that answers every call from the
    history of the calls made so far.  Every call is recorded, with its
    answer, in the order the code issues it.  A path that holds [None]
    makes the inherited helpers fail while they build the URI, before the
    request.  [LOGGER.debug] lines of the foreground path are not recorded;
    those of the renewal loop are. *)

From Stdlib Require Import ZArith List String Bool Lia DecimalString.
Import ListNotations.
Open Scope string_scope.
Open Scope Z_scope.

(** ** Python values and exceptions *)

(** Exceptions that can leave the methods of this module.  [CallerError]
    stands for whatever the caller's own code raises inside a [with]
    block. *)
Inductive exn : Type :=
| ValueError (msg : string)
| LockFailure
| AttributeError (msg : string)
| TypeError (msg : string)
| CallerError (what : string).

Inductive result (A : Type) : Type :=
| Return (a : A)
| Raise (e : exn).
Arguments Return {A} a.
Arguments Raise {A} e.

(** [x or y] on an optional string: [None] and [''] are falsy. *)
Definition truthy (x : option string) : bool :=
  match x with
  | None => false
  | Some s => negb (s =? "")%string
  end.

(** [str(n)] for an int. *)
Definition str (n : Z) : string := NilZero.string_of_int (Z.to_int n).

(** ** The collaborator *)

(** The query parameter handed to [_put_response_body]. *)
Inductive clause : Type :=
| acquire_by (session_id : option string)
| release_by (session_id : option string).

(** One call on the collaborator, with what it returned. *)
Inductive call : Type :=
| session_create (behavior : option string) (ttl : option string) (ret : string)
| session_renew (session_id : option string) (ret : bool)
| session_destroy (session_id : option string) (ret : bool)
| kv_put (item : option string) (query : clause) (value : option string) (ret : bool)
| kv_delete (item : option string) (ret : bool).

(** The answers of the collaborator, each a function of the calls already
    made, and the source of [uuid.uuid4()] tokens. *)
Record collaborator : Type := {
  create_ret : list call -> option string -> option string -> string;
  renew_ret : list call -> option string -> bool;
  destroy_ret : list call -> option string -> bool;
  put_ret : list call -> option string -> clause -> option string -> bool;
  delete_ret : list call -> option string -> bool;
  uuid4 : nat -> string
}.

(** ** StoppableThread *)

Module StoppableThread.

(** [target] is the [renew] closure, determined by the [timer_ttl] it
    captured. *)
Record t : Type := {
  target : Z;
  active : bool;
  daemon : bool
}.

(** [__init__]: [self.active = local(); self.active = True].  [daemon]
    is [False] on a thread made by the main thread. *)
Definition __init__ (target : Z) : t :=
  {| target := target; active := true; daemon := false |}.

Definition set_active (b : bool) (th : t) : t :=
  {| target := target th; active := b; daemon := daemon th |}.

Definition set_daemon (b : bool) (th : t) : t :=
  {| target := target th; active := active th; daemon := b |}.

End StoppableThread.

(** ** State: the world outside and the Lock object *)

Record world : Type := {
  calls : list call;                   (* collaborator calls, oldest first *)
  started : list StoppableThread.t;    (* threads as they were when start() ran *)
  uuids : nat                          (* tokens drawn so far *)
}.

Definition empty_world : world :=
  {| calls := []; started := []; uuids := 0 |}.

(** The fields set by [Lock.__init__] and mutated by its methods. *)
Record Lock : Type := {
  _session_id : option string;
  _ttl_timer : option StoppableThread.t;
  _item : option string;
  _prefix : string
}.

Definition DEFAULT_PREFIX : string := "consulate/locks".

Definition state : Type := world * Lock.

(** ** Computations

    State passing with exceptions; an exception keeps the state reached
    when it was raised, as a Python exception keeps the mutations made
    before it. *)
Definition M (A : Type) : Type := state -> result A * state.

Definition ret {A} (a : A) : M A := fun st => (Return a, st).

Definition raise {A} (e : exn) : M A := fun st => (Raise e, st).

Definition bind {A B} (m : M A) (k : A -> M B) : M B :=
  fun st =>
    match m st with
    | (Return a, st') => k a st'
    | (Raise e, st') => (Raise e, st')
    end.

Declare Scope py_scope.
Delimit Scope py_scope with py.
Notation "x <- m ;; k" := (bind m (fun x => k))
  (at level 61, m at next level, right associativity) : py_scope.
Notation "m ;; k" := (bind m (fun _ => k))
  (at level 61, right associativity) : py_scope.
Open Scope py_scope.

(** Reading and writing the attributes of [self]. *)
Definition gets {A} (f : Lock -> A) : M A :=
  fun st => (Return (f (snd st)), st).

Definition modify (f : Lock -> Lock) : M unit :=
  fun st => (Return tt, (fst st, f (snd st))).

Definition set_session_id (v : option string) (self : Lock) : Lock :=
  {| _session_id := v; _ttl_timer := _ttl_timer self;
     _item := _item self; _prefix := _prefix self |}.

Definition set_ttl_timer (v : option StoppableThread.t) (self : Lock) : Lock :=
  {| _session_id := _session_id self; _ttl_timer := v;
     _item := _item self; _prefix := _prefix self |}.

Definition set_item (v : option string) (self : Lock) : Lock :=
  {| _session_id := _session_id self; _ttl_timer := _ttl_timer self;
     _item := v; _prefix := _prefix self |}.

Definition set_prefix (v : string) (self : Lock) : Lock :=
  {| _session_id := _session_id self; _ttl_timer := _ttl_timer self;
     _item := _item self; _prefix := v |}.

(** Effects on the world. *)
Definition record_call (c : call) (w : world) : world :=
  {| calls := calls w ++ [c]; started := started w; uuids := uuids w |}.

Definition record_start (th : StoppableThread.t) (w : world) : world :=
  {| calls := calls w; started := started w ++ [th]; uuids := uuids w |}.

Definition draw_uuid (w : world) : world :=
  {| calls := calls w; started := started w; uuids := S (uuids w) |}.

Section Endpoint.

Variable C : collaborator.

(** [self._session.create(behavior=..., ttl=...)] *)
Definition create (behavior ttl : option string) : M string :=
  fun st =>
    let r := create_ret C (calls (fst st)) behavior ttl in
    (Return r, (record_call (session_create behavior ttl r) (fst st), snd st)).

(** [self._session.destroy(session_id)] *)
Definition destroy (session_id : option string) : M bool :=
  fun st =>
    let r := destroy_ret C (calls (fst st)) session_id in
    (Return r, (record_call (session_destroy session_id r) (fst st), snd st)).

(** [self._build_uri([item])], inherited: the parts of the path are joined
    with ['/'.join], which raises [TypeError] on a part that is [None],
    before any request is made. *)
Definition _build_uri (item : option string) : M string :=
  match item with
  | Some path => ret path
  | None =>
      raise (TypeError "sequence item 0: expected str instance, NoneType found")
  end.

(** [self._put_response_body([item], query, payload)], which builds the
    URI of the item first. *)
Definition _put_response_body (item : option string) (query : clause)
    (payload : option string) : M bool :=
  path <- _build_uri item ;;
  fun st =>
    let r := put_ret C (calls (fst st)) (Some path) query payload in
    (Return r,
     (record_call (kv_put (Some path) query payload r) (fst st), snd st)).

(** [self._adapter.delete(self._build_uri([item]))] *)
Definition adapter_delete (item : option string) : M bool :=
  path <- _build_uri item ;;
  fun st =>
    let r := delete_ret C (calls (fst st)) (Some path) in
    (Return r, (record_call (kv_delete (Some path) r) (fst st), snd st)).

(** [str(uuid.uuid4())] *)
Definition fresh_uuid : M string :=
  fun st => (Return (uuid4 C (uuids (fst st))), (draw_uuid (fst st), snd st)).

(** Access to an attribute of [self._ttl_timer]: an [AttributeError] when
    the field holds [None]. *)
Definition on_ttl_timer {A} (attribute : string)
    (k : StoppableThread.t -> M A) : M A :=
  timer <- gets _ttl_timer ;;
  match timer with
  | None =>
      raise (AttributeError
               ("'NoneType' object has no attribute '" ++ attribute ++ "'"))
  | Some th => k th
  end.

(** [self._ttl_timer.active = b] and [self._ttl_timer.daemon = b]: the
    thread object held in the field is mutated in place. *)
Definition set_timer_active (b : bool) : M unit :=
  on_ttl_timer "active"
    (fun th => modify (set_ttl_timer (Some (StoppableThread.set_active b th)))).

Definition set_timer_daemon (b : bool) : M unit :=
  on_ttl_timer "daemon"
    (fun th => modify (set_ttl_timer (Some (StoppableThread.set_daemon b th)))).

(** [self._ttl_timer.start()] *)
Definition start_timer : M unit :=
  on_ttl_timer "start"
    (fun th st => (Return tt, (record_start th (fst st), snd st))).

(** [Lock.__init__]: no session, no timer, a random item, the default
    prefix. *)
Definition __init__ (w : world) : state :=
  (draw_uuid w,
   {| _session_id := None;
      _ttl_timer := None;
      _item := Some (uuid4 C (uuids w));
      _prefix := DEFAULT_PREFIX |}).

(** The [key] property. *)
Definition key (self : Lock) : option string := _item self.

(** [prefix(value)]: [self._prefix = value or ''] *)
Definition prefix (value : option string) : M unit :=
  modify (set_prefix (if truthy value
                      then match value with Some s => s | None => "" end
                      else "")).

(** [_acquire(key, value, behavior, ttl, renew_before_ttl)] *)
Definition _acquire (key value behavior : option string) (ttl : option Z)
    (renew_before_ttl : Z) : M unit :=
  (match ttl with
   | None =>
       sid <- create behavior None ;;
       modify (set_session_id (Some sid))
   | Some n =>
       if n <? 10
       then raise (ValueError "ttl is less than the minimum (10s)")
       else
         sid <- create behavior (Some (str n ++ "s")) ;;
         modify (set_session_id (Some sid))
   end) ;;
  name <- (if truthy key
           then ret (match key with Some k => k | None => "" end)
           else fresh_uuid) ;;
  pre <- gets _prefix ;;
  modify (set_item (Some (String.concat "/" [pre; name]))) ;;
  item <- gets _item ;;
  sid <- gets _session_id ;;
  response <- _put_response_body item (acquire_by sid) value ;;
  if negb response
  then
    sid <- gets _session_id ;;
    destroy sid ;;
    raise LockFailure
  else
    match ttl with
    | None => ret tt
    | Some n =>
        let timer_ttl := n - renew_before_ttl in
        if 0 <? timer_ttl
        then
          modify (set_ttl_timer (Some (StoppableThread.__init__ timer_ttl))) ;;
          set_timer_daemon true ;;
          start_timer
        else ret tt
    end.

(** [_release()] *)
Definition _release : M unit :=
  set_timer_active false ;;
  item <- gets _item ;;
  sid <- gets _session_id ;;
  _put_response_body item (release_by sid) None ;;
  item <- gets _item ;;
  adapter_delete item ;;
  sid <- gets _session_id ;;
  destroy sid ;;
  modify (set_item None) ;;
  modify (set_session_id None).

(** A generator function with one [yield], outside any [try]. *)
Record generator : Type := {
  before_yield : M unit;
  after_yield : M unit
}.

(** [with contextlib.contextmanager(g)(): body].  [__enter__] runs the
    generator up to its [yield].  When the body ends normally [__exit__]
    resumes the generator after the [yield]; when the body raises,
    [__exit__] throws the exception into the generator at the [yield],
    and with no handler there it leaves the generator at once and
    propagates: the code after the [yield] does not run. *)
Definition with_contextmanager (g : generator) (body : M unit) : M unit :=
  fun st =>
    match before_yield g st with
    | (Raise e, st1) => (Raise e, st1)
    | (Return _, st1) =>
        match body st1 with
        | (Return _, st2) => after_yield g st2
        | (Raise e, st2) => (Raise e, st2)
        end
    end.

(** [acquire(key, value, behavior, ttl, renew_before_ttl)], the generator
    behind the context manager. *)
Definition acquire (key value behavior : option string) (ttl : option Z)
    (renew_before_ttl : Z) : generator :=
  {| before_yield := _acquire key value behavior ttl renew_before_ttl;
     after_yield := _release |}.

End Endpoint.

(** ** The renewal loop

    [renew], the target of the thread, runs beside the main thread.  What
    it reads on each pass ([self._ttl_timer.active], [self._item],
    [self._session_id]) and what [self._session.renew] answers is given
    by a schedule, one observation for each evaluation of the loop
    condition. *)
Record observation : Type := {
  seen_active : bool;
  seen_item : option string;
  seen_session_id : option string;
  renew_answer : bool
}.

Inductive thread_event : Type :=
| log_renewing (item session_id : option string) (timer_ttl : Z)
| renew_call (session_id : option string) (ret : bool)
| sleep (seconds : Z)
| log_ceasing (item session_id : option string).

(** The events of the loop over a schedule, and whether the loop was left
    ([false]: the schedule ended with the thread still looping). *)
Fixpoint renew (timer_ttl : Z) (schedule : list observation)
    : list thread_event * bool :=
  match schedule with
  | [] => ([], false)
  | o :: later =>
      if seen_active o
      then
        let pass :=
          log_renewing (seen_item o) (seen_session_id o) timer_ttl
          :: renew_call (seen_session_id o) (renew_answer o)
          :: (if renew_answer o then [sleep timer_ttl] else []) in
        let rest := renew timer_ttl later in
        ((pass ++ fst rest)%list, snd rest)
      else ([log_ceasing (seen_item o) (seen_session_id o)], true)
  end.

(** [Thread.run] of a started thread. *)
Definition run (th : StoppableThread.t) (schedule : list observation)
    : list thread_event * bool :=
  renew (StoppableThread.target th) schedule.

(** ** Calling the methods in sequence *)

Inductive method : Type :=
| call_acquire (key value behavior : option string) (ttl : option Z)
    (renew_before_ttl : Z)
| call_release
| call_prefix (value : option string)
| call_with (key value behavior : option string) (ttl : option Z)
    (renew_before_ttl : Z) (body_raises : option exn).

Definition invoke (C : collaborator) (m : method) : M unit :=
  match m with
  | call_acquire key value behavior ttl renew_before_ttl =>
      _acquire C key value behavior ttl renew_before_ttl
  | call_release => _release C
  | call_prefix value => prefix value
  | call_with key value behavior ttl renew_before_ttl body_raises =>
      with_contextmanager (acquire C key value behavior ttl renew_before_ttl)
        (match body_raises with
         | None => ret tt
         | Some e => raise e
         end)
  end.

(** The state after a sequence of calls, whatever each returned or
    raised. *)
Fixpoint invoke_all (C : collaborator) (ms : list method) (st : state) : state :=
  match ms with
  | [] => st
  | m :: later => invoke_all C later (snd (invoke C m st))
  end.

(** No session, and then no active timer. *)
Definition timer_idle_when_unheld (self : Lock) : Prop :=
  _session_id self = None ->
  match _ttl_timer self with
  | None => True
  | Some th => StoppableThread.active th = false
  end.

(** ** Reading traces *)

(** The calls made between two states. *)
Definition new_calls (before after : state) : list call :=
  skipn (List.length (calls (fst before))) (calls (fst after)).

Definition is_destroy_of (session_id : string) (c : call) : bool :=
  match c with
  | session_destroy (Some s) _ => (s =? session_id)%string
  | _ => false
  end.

Definition is_renew_call (e : thread_event) : bool :=
  match e with
  | renew_call _ _ => true
  | _ => false
  end.

Definition is_sleep (e : thread_event) : bool :=
  match e with
  | sleep _ => true
  | _ => false
  end.

(** The passes of the loop that find the flag set: the schedule up to its
    first inactive observation. *)
Fixpoint live_passes (schedule : list observation) : list observation :=
  match schedule with
  | [] => []
  | o :: later => if seen_active o then o :: live_passes later else []
  end.

(** The [renew] calls issued after the first one that returned [False]. *)
Fixpoint renews_after_failure (events : list thread_event) : nat :=
  match events with
  | [] => 0%nat
  | renew_call _ false :: later => List.length (filter is_renew_call later)
  | _ :: later => renews_after_failure later
  end.

(** The thread that [_acquire] makes and starts for a given [timer_ttl]. *)
Definition renewal_thread (timer_ttl : Z) : StoppableThread.t :=
  StoppableThread.set_daemon true (StoppableThread.__init__ timer_ttl).

(** ** Collaborators and states for concrete runs *)

(** Sessions are numbered by the calls made before them; every write is
    granted. *)
Definition granting : collaborator :=
  {| create_ret := fun h _ _ => "session-" ++ str (Z.of_nat (List.length h));
     renew_ret := fun _ _ => true;
     destroy_ret := fun _ _ => true;
     put_ret := fun _ _ _ _ => true;
     delete_ret := fun _ _ => true;
     uuid4 := fun n => "uuid-" ++ str (Z.of_nat n) |}.

(** As [granting], but the key is held elsewhere: a write with an acquire
    clause is refused once the history has [free] calls or more. *)
Definition held_elsewhere (free : nat) : collaborator :=
  {| create_ret := create_ret granting;
     renew_ret := renew_ret granting;
     destroy_ret := destroy_ret granting;
     put_ret := fun h _ q _ =>
       match q with
       | acquire_by _ => (List.length h <? free)%nat
       | release_by _ => true
       end;
     delete_ret := delete_ret granting;
     uuid4 := uuid4 granting |}.

Definition job_1 : option string := Some "job-1".

(** An observation of a held lock whose session the server has dropped. *)
Definition renew_fails : observation :=
  {| seen_active := true;
     seen_item := Some "consulate/locks/job-1";
     seen_session_id := Some "session-0";
     renew_answer := false |}.

(** ** The steps of one [_acquire]

    Names for the values [_acquire] computes on its way, for a call that
    passes the [ttl] check; [_acquire_outcome] below shows that they are
    what the method does. *)
Section Acquisition.

Variable C : collaborator.
Variables key value behavior : option string.
Variable ttl : option Z.
Variable renew_before_ttl : Z.
Variable st : state.

Definition ttl_allowed : Prop :=
  match ttl with
  | None => True
  | Some n => 10 <= n
  end.

Definition ttl_argument : option string :=
  match ttl with
  | None => None
  | Some n => Some (str n ++ "s")
  end.

Definition new_session : string :=
  create_ret C (calls (fst st)) behavior ttl_argument.

Definition create_call : call :=
  session_create behavior ttl_argument new_session.

Definition new_name : string :=
  if truthy key
  then match key with Some k => k | None => "" end
  else uuid4 C (uuids (fst st)).

Definition new_item : string := _prefix (snd st) ++ "/" ++ new_name.

Definition write_granted : bool :=
  put_ret C (calls (fst st) ++ [create_call])
    (Some new_item) (acquire_by (Some new_session)) value.

Definition write_call : call :=
  kv_put (Some new_item) (acquire_by (Some new_session)) value write_granted.

Definition after_write : world :=
  {| calls := calls (fst st) ++ [create_call; write_call];
     started := started (fst st);
     uuids := if truthy key then uuids (fst st) else S (uuids (fst st)) |}.

Definition held_lock : Lock :=
  {| _session_id := Some new_session;
     _ttl_timer := _ttl_timer (snd st);
     _item := Some new_item;
     _prefix := _prefix (snd st) |}.

Definition new_timer : option StoppableThread.t :=
  match ttl with
  | None => None
  | Some n =>
      if 0 <? n - renew_before_ttl
      then Some (renewal_thread (n - renew_before_ttl))
      else None
  end.

Definition after_grant : state :=
  match new_timer with
  | None => (after_write, held_lock)
  | Some th => (record_start th after_write, set_ttl_timer (Some th) held_lock)
  end.

Definition cleanup_call : call :=
  session_destroy (Some new_session)
    (destroy_ret C (calls after_write) (Some new_session)).

Definition after_refusal : state :=
  (record_call cleanup_call after_write, held_lock).

End Acquisition.

(** The calls of one [_release] that finds a timer. *)
Section ReleaseCalls.

Variable C : collaborator.
Variable st : state.

Definition release_write : call :=
  kv_put (_item (snd st)) (release_by (_session_id (snd st))) None
    (put_ret C (calls (fst st)) (_item (snd st))
       (release_by (_session_id (snd st))) None).

Definition release_delete : call :=
  kv_delete (_item (snd st))
    (delete_ret C (calls (fst st) ++ [release_write]) (_item (snd st))).

Definition release_destroy : call :=
  session_destroy (_session_id (snd st))
    (destroy_ret C (calls (fst st) ++ [release_write; release_delete])
       (_session_id (snd st))).

End ReleaseCalls.

(** ** Further readers of traces *)

(** The seconds the renewal loop slept in all. *)
Fixpoint slept (events : list thread_event) : Z :=
  match events with
  | [] => 0
  | sleep seconds :: later => seconds + slept later
  | _ :: later => slept later
  end.

(** A call that only [_release] makes: a write with a release clause, or
    a delete. *)
Definition is_release_step (c : call) : bool :=
  match c with
  | kv_put _ (release_by _) _ _ => true
  | kv_delete _ _ => true
  | _ => false
  end.

Definition is_prefix_call (m : method) : bool :=
  match m with
  | call_prefix _ => true
  | _ => false
  end.

(** What a renewal thread started by [_acquire] looks like: made for a
    positive [timer_ttl], flagged active, a daemon. *)
Definition well_started (th : StoppableThread.t) : Prop :=
  0 < StoppableThread.target th
  /\ StoppableThread.active th = true
  /\ StoppableThread.daemon th = true.

(** What a method leaves alone: the prefix, unless the method is [prefix];
    and the threads started so far, to which it adds none or some that are
    well started. *)
Definition method_frame (changes_prefix : bool) (st st' : state) : Prop :=
  (changes_prefix = false -> _prefix (snd st') = _prefix (snd st))
  /\ exists more,
       started (fst st') = (started (fst st) ++ more)%list
       /\ Forall well_started more.

(** ** The renewal loop, pass by pass

    A second description of the loop, by what one pass does, to compare
    [renew] with. *)

(** A pass that finds the flag set: the renewing line, the [renew] call
    for the session seen, and a pause of [timer_ttl] when the call
    succeeded, none when it failed. *)
Definition pass_events (timer_ttl : Z) (o : observation) : list thread_event :=
  [log_renewing (seen_item o) (seen_session_id o) timer_ttl;
   renew_call (seen_session_id o) (renew_answer o)]
  ++ (if renew_answer o then [sleep timer_ttl] else []).

(** The first pass that finds the flag cleared, if the schedule has one. *)
Fixpoint first_cleared (schedule : list observation) : option observation :=
  match schedule with
  | [] => None
  | o :: later => if seen_active o then first_cleared later else Some o
  end.

(** The ceasing line that the loop logs when it is left. *)
Definition ceasing_line (schedule : list observation) : list thread_event :=
  match first_cleared schedule with
  | Some off => [log_ceasing (seen_item off) (seen_session_id off)]
  | None => []
  end.

(** ** Whether a lease is held

    The handle holds a lease-based lock from an [_acquire] with a [ttl]
    that returned until a [_release] that returns.  An [_acquire] without
    [ttl], and any call that raises, leaves this as it was. *)
Definition lease_after_acquire (r : result unit) (ttl : option Z)
    (held : bool) : bool :=
  match r, ttl with
  | Return _, Some _ => true
  | _, _ => held
  end.

Definition lease_after_release (r : result unit) (held : bool) : bool :=
  match r with
  | Return _ => false
  | Raise _ => held
  end.

Definition holds_lease_after (C : collaborator) (m : method) (st : state)
    (held : bool) : bool :=
  match m with
  | call_acquire key value behavior ttl renew_before_ttl =>
      lease_after_acquire
        (fst (_acquire C key value behavior ttl renew_before_ttl st)) ttl held
  | call_release => lease_after_release (fst (_release C st)) held
  | call_prefix _ => held
  | call_with key value behavior ttl renew_before_ttl body_raises =>
      let entered := _acquire C key value behavior ttl renew_before_ttl st in
      let held1 := lease_after_acquire (fst entered) ttl held in
      match fst entered, body_raises with
      | Return _, None =>
          lease_after_release (fst (_release C (snd entered))) held1
      | _, _ => held1
      end
  end.

(** Whether a lease is held after a sequence of calls. *)
Fixpoint holds_lease (C : collaborator) (ms : list method) (st : state)
    (held : bool) : bool :=
  match ms with
  | [] => held
  | m :: later =>
      holds_lease C later (snd (invoke C m st)) (holds_lease_after C m st held)
  end.

(** The timer field holds no thread, or one whose flag is cleared. *)
Definition timer_idle (self : Lock) : Prop :=
  match _ttl_timer self with
  | None => True
  | Some th => StoppableThread.active th = false
  end.

(** What is kept along a sequence of calls on a handle made in a world
    with the threads [before]: an unheld handle and a handle without a
    lease have an idle timer, and the timer field is [None] exactly as
    long as no thread was started. *)
Definition timer_invariant (before : list StoppableThread.t) (st : state)
    (held : bool) : Prop :=
  timer_idle_when_unheld (snd st)
  /\ (held = false -> timer_idle (snd st))
  /\ exists more,
       started (fst st) = (before ++ more)%list
       /\ (_ttl_timer (snd st) = None <-> more = []).

(** ** Keyword defaults

    An argument is given ([Some]) or left out ([None]); a parameter left
    out takes the default of the signature. *)
Definition or_default {A} (default : A) (arg : option A) : A :=
  match arg with
  | Some a => a
  | None => default
  end.

(** [def acquire(self, key=None, value=None, behavior=None, ttl=None,
    renew_before_ttl=5)], which hands all five on to [_acquire]. *)
Definition acquire_with_defaults (C : collaborator)
    (key value behavior : option (option string)) (ttl : option (option Z))
    (renew_before_ttl : option Z) : generator :=
  acquire C (or_default None key) (or_default None value)
    (or_default None behavior) (or_default None ttl)
    (or_default 5 renew_before_ttl).

(** [def _acquire(self, key=None, value=None, behavior='release', ttl=None,
    renew_before_ttl=5)] *)
Definition _acquire_with_defaults (C : collaborator)
    (key value behavior : option (option string)) (ttl : option (option Z))
    (renew_before_ttl : option Z) : M unit :=
  _acquire C (or_default None key) (or_default None value)
    (or_default (Some "release") behavior) (or_default None ttl)
    (or_default 5 renew_before_ttl).

(** ** Proof support *)

Ltac py_unfold :=
  unfold invoke, with_contextmanager, acquire, _acquire, _release, prefix,
    set_timer_active, set_timer_daemon, start_timer, on_ttl_timer,
    create, destroy, _put_response_body, adapter_delete, _build_uri,
    fresh_uuid,
    bind, ret, raise, gets, modify in *;
  cbn [before_yield after_yield fst snd] in *.

Lemma skipn_length_app {A} (l l' : list A) :
  skipn (List.length l) (l ++ l') = l'.
Proof.
  induction l as [| a l IH]; [reflexivity | exact IH].
Qed.

Section Facts.

Variable C : collaborator.

Lemma _acquire_small_ttl key value behavior n renew_before_ttl st :
  n < 10 ->
  _acquire C key value behavior (Some n) renew_before_ttl st
  = (Raise (ValueError "ttl is less than the minimum (10s)"), st).
Proof.
  intros Hn. py_unfold.
  apply Z.ltb_lt in Hn. rewrite Hn. reflexivity.
Qed.

Lemma _release_without_timer st :
  _ttl_timer (snd st) = None ->
  _release C st
  = (Raise (AttributeError "'NoneType' object has no attribute 'active'"), st).
Proof.
  intros Hnone. py_unfold. rewrite Hnone. reflexivity.
Qed.

End Facts.

(** ** What [_acquire] and [_release] do *)
Section Outcomes.

Variable C : collaborator.
Variables key value behavior : option string.
Variable ttl : option Z.
Variable renew_before_ttl : Z.
Variable st : state.

Local Abbreviation granted := (write_granted C key value behavior ttl st).
Local Abbreviation grant := (after_grant C key value behavior ttl renew_before_ttl st).
Local Abbreviation refusal := (after_refusal C key value behavior ttl st).

Lemma _acquire_outcome :
  ttl_allowed ttl ->
  _acquire C key value behavior ttl renew_before_ttl st
  = if granted then (Return tt, grant) else (Raise LockFailure, refusal).
Proof.
  intros Hok.
  unfold after_grant, after_refusal, cleanup_call, new_timer, held_lock,
    after_write, write_call, write_granted, new_item, new_name, create_call,
    new_session, ttl_argument.
  unfold ttl_allowed in Hok.
  py_unfold.
  destruct ttl as [n |].
  - apply Z.ltb_ge in Hok. rewrite Hok.
    destruct (truthy key); cbn -[str String.append];
      (destruct (put_ret _ _ _ _ _); cbn -[str String.append];
       [destruct (0 <? n - renew_before_ttl) |];
       unfold record_start, record_call, set_ttl_timer, set_item,
         set_session_id, renewal_thread;
       cbn -[str String.append]; rewrite <- ?app_assoc; reflexivity).
  - destruct (truthy key); cbn -[str String.append];
      (destruct (put_ret _ _ _ _ _); cbn -[str String.append];
       unfold record_start, record_call, set_ttl_timer, set_item,
         set_session_id, renewal_thread;
       cbn -[str String.append]; rewrite <- ?app_assoc; reflexivity).
Qed.

(** The three ways out of [_acquire]. *)
Lemma _acquire_cases r st' :
  _acquire C key value behavior ttl renew_before_ttl st = (r, st') ->
  (exists n, ttl = Some n /\ n < 10 /\ st' = st
             /\ r = Raise (ValueError "ttl is less than the minimum (10s)"))
  \/ (ttl_allowed ttl /\ granted = true /\ r = Return tt /\ st' = grant)
  \/ (ttl_allowed ttl /\ granted = false /\ r = Raise LockFailure
      /\ st' = refusal).
Proof.
  intros Hrun.
  assert (Hsplit : (exists n, ttl = Some n /\ n < 10) \/ ttl_allowed ttl).
  { unfold ttl_allowed. destruct ttl as [n |]; [| now right].
    destruct (Z.lt_ge_cases n 10); [left; eauto | now right]. }
  destruct Hsplit as [[n [Httl Hn]] | Hok].
  - left. exists n. subst ttl.
    rewrite _acquire_small_ttl in Hrun by exact Hn.
    inversion Hrun. auto.
  - right. rewrite _acquire_outcome in Hrun by exact Hok.
    destruct granted; inversion Hrun; [left | right]; auto.
Qed.

Lemma calls_after_grant :
  calls (fst grant)
  = (calls (fst st)
     ++ [create_call C behavior ttl st;
         write_call C key value behavior ttl st])%list.
Proof.
  unfold after_grant. destruct (new_timer ttl renew_before_ttl); reflexivity.
Qed.

Lemma calls_after_refusal :
  calls (fst refusal)
  = (calls (fst st)
     ++ [create_call C behavior ttl st;
         write_call C key value behavior ttl st;
         cleanup_call C key value behavior ttl st])%list.
Proof.
  unfold after_refusal, record_call, after_write. cbn [fst calls].
  rewrite <- app_assoc. reflexivity.
Qed.

Lemma session_after_grant :
  _session_id (snd grant) = Some (new_session C behavior ttl st).
Proof.
  unfold after_grant. destruct (new_timer ttl renew_before_ttl); reflexivity.
Qed.

Lemma item_after_grant :
  _item (snd grant) = Some (new_item C key st).
Proof.
  unfold after_grant. destruct (new_timer ttl renew_before_ttl); reflexivity.
Qed.

End Outcomes.

Section Release.

Variable C : collaborator.
Variable st : state.

Lemma _release_with_timer th path :
  _ttl_timer (snd st) = Some th ->
  _item (snd st) = Some path ->
  _release C st
  = (Return tt,
     ({| calls := calls (fst st)
                  ++ [release_write C st; release_delete C st;
                      release_destroy C st];
         started := started (fst st);
         uuids := uuids (fst st) |},
      {| _session_id := None;
         _ttl_timer := Some (StoppableThread.set_active false th);
         _item := None;
         _prefix := _prefix (snd st) |})).
Proof.
  intros Hth Hpath. unfold release_destroy, release_delete, release_write.
  py_unfold. rewrite Hth. cbn. rewrite Hpath. cbn.
  unfold record_call. cbn. rewrite Hpath. cbn.
  rewrite <- !app_assoc. reflexivity.
Qed.

(** With a timer but no item, [_release] clears the flag and then fails
    on the path of its first call; no call is made. *)
Lemma _release_without_item th :
  _ttl_timer (snd st) = Some th ->
  _item (snd st) = None ->
  _release C st
  = (Raise (TypeError "sequence item 0: expected str instance, NoneType found"),
     (fst st,
      set_ttl_timer (Some (StoppableThread.set_active false th)) (snd st))).
Proof.
  intros Hth Hnone. py_unfold. rewrite Hth. cbn. rewrite Hnone. reflexivity.
Qed.

(** Whatever [_release] does to a handle with a timer, the timer it leaves
    is that one with its flag cleared, and the prefix and the started
    threads are as before. *)
Lemma _release_clears_flag th :
  _ttl_timer (snd st) = Some th ->
  _ttl_timer (snd (snd (_release C st)))
  = Some (StoppableThread.set_active false th)
  /\ _prefix (snd (snd (_release C st))) = _prefix (snd st)
  /\ started (fst (snd (_release C st))) = started (fst st).
Proof.
  intros Hth. destruct (_item (snd st)) as [path |] eqn:Hitem.
  - rewrite (_release_with_timer th path Hth Hitem). repeat split.
  - rewrite (_release_without_item th Hth Hitem). repeat split.
Qed.

End Release.


(** ** The [ttl] check *)

(** C6.  A [ttl] below 10 makes [_acquire] raise [ValueError] in the state
    it was called in: no session is created, no write is attempted, no
    collaborator call is recorded and no field of the handle changes.
    Through the context manager the same error leaves [__enter__] and the
    body does not run. *)
Theorem small_ttl_raises_before_any_call
    (C : collaborator) (key value behavior : option string)
    (n renew_before_ttl : Z) (body : M unit) (st : state) :
  n < 10 ->
  _acquire C key value behavior (Some n) renew_before_ttl st
  = (Raise (ValueError "ttl is less than the minimum (10s)"), st)
  /\ with_contextmanager
       (acquire C key value behavior (Some n) renew_before_ttl) body st
     = (Raise (ValueError "ttl is less than the minimum (10s)"), st)
  /\ new_calls st
       (snd (_acquire C key value behavior (Some n) renew_before_ttl st))
     = [].
Proof.
  intros Hn.
  pose proof (_acquire_small_ttl C key value behavior n renew_before_ttl st Hn)
    as Hrun.
  split; [exact Hrun | split].
  - unfold with_contextmanager, acquire. cbn [before_yield].
    rewrite Hrun. reflexivity.
  - rewrite Hrun. unfold new_calls. cbn [snd].
    apply skipn_all.
Qed.

Lemma small_ttl_raises_before_any_call_witness :
  9 < 10
  /\ _acquire granting job_1 None None (Some 9) 5 (__init__ granting empty_world)
     = (Raise (ValueError "ttl is less than the minimum (10s)"),
        __init__ granting empty_world).
Proof.
  split; [lia |].
  apply (small_ttl_raises_before_any_call granting job_1 None None 9 5
           (ret tt) (__init__ granting empty_world)).
  lia.
Defined.

(** ** A refused write *)

(** C5.  When the run of [_acquire] contains a conditional write that was
    answered [False], the method raises [LockFailure]; the calls it made
    are the creation of a session, that write, and one [destroy] of that
    same session, in this order; no thread was started and the timer field
    is untouched. *)
Theorem refused_write_destroys_the_session_once
    (C : collaborator) (key value behavior : option string) (ttl : option Z)
    (renew_before_ttl : Z) (st : state) (r : result unit) (st' : state) :
  _acquire C key value behavior ttl renew_before_ttl st = (r, st') ->
  (exists item sid v,
      In (kv_put item (acquire_by sid) v false) (new_calls st st')) ->
  r = Raise LockFailure
  /\ exists sid item answer,
       new_calls st st'
       = [session_create behavior (ttl_argument ttl) sid;
          kv_put (Some item) (acquire_by (Some sid)) value false;
          session_destroy (Some sid) answer]
       /\ List.length (filter (is_destroy_of sid) (new_calls st st')) = 1%nat
       /\ started (fst st') = started (fst st)
       /\ _ttl_timer (snd st') = _ttl_timer (snd st).
Proof.
  intros Hrun [item [sid [v Hin]]].
  destruct (_acquire_cases C key value behavior ttl renew_before_ttl st r st' Hrun)
    as [[n [_ [_ [Hst _]]]] | [[_ [Hg [_ Hst]]] | [_ [Hg [Hr Hst]]]]];
    subst st'.
  - unfold new_calls in Hin. rewrite skipn_all in Hin. destruct Hin.
  - unfold new_calls in Hin.
    rewrite calls_after_grant, skipn_length_app in Hin.
    unfold write_call in Hin. rewrite Hg in Hin.
    destruct Hin as [Hin | [Hin | []]]; discriminate Hin.
  - split; [exact Hr |].
    exists (new_session C behavior ttl st), (new_item C key st),
      (destroy_ret C (calls (after_write C key value behavior ttl st))
         (Some (new_session C behavior ttl st))).
    unfold new_calls.
    rewrite calls_after_refusal, skipn_length_app.
    unfold create_call, write_call, cleanup_call. rewrite Hg.
    repeat split.
    cbn [filter is_destroy_of]. rewrite String.eqb_refl. reflexivity.
Qed.

Lemma refused_write_destroys_the_session_once_witness :
  fst (_acquire (held_elsewhere 0) job_1 None None (Some 30) 5
         (__init__ (held_elsewhere 0) empty_world))
  = Raise LockFailure.
Proof.
  refine (proj1
            (refused_write_destroys_the_session_once (held_elsewhere 0)
               job_1 None None (Some 30) 5
               (__init__ (held_elsewhere 0) empty_world) _ _ _ _)).
  - apply surjective_pairing.
  - exists (Some "consulate/locks/job-1"), (Some "session-0"), None.
    vm_compute. right. left. reflexivity.
Defined.

(** ** The renewal thread of a lease *)

(** Every pause of the renewal loop lasts the [timer_ttl] its closure
    captured. *)
Lemma renew_sleeps_timer_ttl (timer_ttl : Z) (schedule : list observation)
    (seconds : Z) :
  In (sleep seconds) (fst (renew timer_ttl schedule)) -> seconds = timer_ttl.
Proof.
  induction schedule as [| o later IH]; cbn [renew fst].
  - intros [].
  - destruct (seen_active o); cbn [fst].
    + intros [Hlog | [Hcall | Hrest]]; try discriminate.
      apply in_app_or in Hrest. destruct Hrest as [Hpause | Hlater].
      * destruct (renew_answer o); [| destruct Hpause].
        destruct Hpause as [Heq | []]. now inversion Heq.
      * exact (IH Hlater).
    + intros [Hlog | []]. discriminate.
Qed.

(** C7.  After an [_acquire] with a [ttl] that returned, the interval is
    [ttl - renew_before_ttl]: when it is positive exactly one thread was
    started, the one held in [_ttl_timer], active, and each of its pauses
    lasts the interval; otherwise no thread was started and the timer
    field is as before.  So 30 and 5 start a thread pausing 25 seconds, 10
    and 5 one pausing 5 seconds, 10 and 10 none. *)
Theorem renewal_thread_iff_positive_interval
    (C : collaborator) (key value behavior : option string)
    (n renew_before_ttl : Z) (st st' : state) :
  _acquire C key value behavior (Some n) renew_before_ttl st = (Return tt, st') ->
  let timer_ttl := n - renew_before_ttl in
  (started (fst st')
   = started (fst st)
     ++ (if 0 <? timer_ttl then [renewal_thread timer_ttl] else []))%list
  /\ _ttl_timer (snd st')
     = (if 0 <? timer_ttl
        then Some (renewal_thread timer_ttl)
        else _ttl_timer (snd st))
  /\ StoppableThread.active (renewal_thread timer_ttl) = true
  /\ (forall schedule seconds,
         In (sleep seconds) (fst (run (renewal_thread timer_ttl) schedule)) ->
         seconds = timer_ttl)
  /\ (n = 30 -> renew_before_ttl = 5 ->
      started (fst st') = (started (fst st) ++ [renewal_thread 25])%list)
  /\ (n = 10 -> renew_before_ttl = 5 ->
      started (fst st') = (started (fst st) ++ [renewal_thread 5])%list)
  /\ (n = 10 -> renew_before_ttl = 10 ->
      started (fst st') = started (fst st)).
Proof.
  intros Hrun timer_ttl.
  assert (Hstate :
            st' = after_grant C key value behavior (Some n) renew_before_ttl st).
  { destruct (_acquire_cases C key value behavior (Some n) renew_before_ttl
                st _ _ Hrun)
      as [[m [_ [_ [_ Hr]]]] | [[_ [_ [_ Hst]]] | [_ [_ [Hr _]]]]];
      [discriminate Hr | exact Hst | discriminate Hr]. }
  assert (Hstarted :
            started (fst st')
            = (started (fst st)
               ++ (if 0 <? timer_ttl then [renewal_thread timer_ttl] else []))%list).
  { subst st'. unfold after_grant, new_timer. fold timer_ttl.
    destruct (0 <? timer_ttl); cbn [fst started record_start after_write].
    - reflexivity.
    - now rewrite app_nil_r. }
  split; [exact Hstarted |].
  split.
  { subst st'. unfold after_grant, new_timer. fold timer_ttl.
    destruct (0 <? timer_ttl); reflexivity. }
  split; [reflexivity |].
  split.
  { intros schedule seconds. unfold run, renewal_thread.
    cbn [StoppableThread.target StoppableThread.set_daemon
           StoppableThread.__init__].
    apply renew_sleeps_timer_ttl. }
  repeat split; intros Hn Hb; rewrite Hstarted; subst timer_ttl; subst n;
    subst renew_before_ttl; cbn; auto using app_nil_r.
Qed.

Lemma renewal_thread_iff_positive_interval_witness :
  started (fst (snd (_acquire granting job_1 None None (Some 30) 5
                       (__init__ granting empty_world))))
  = [renewal_thread 25].
Proof.
  refine (proj1
            (proj2 (proj2 (proj2 (proj2
               (renewal_thread_iff_positive_interval granting job_1 None None
                  30 5 (__init__ granting empty_world) _ _)))))
            eq_refl eq_refl).
  vm_compute. reflexivity.
Defined.

(** ** The prefix *)

(** C9.  [prefix] returns without a collaborator call and replaces the
    [_prefix] field alone: by [''] for [None], by the string given
    otherwise.  Session, timer and item, hence [key], are as before.  The
    next [_acquire] that passes the [ttl] check sets the item to the new
    prefix, a slash, and the key given or else a fresh token. *)
Theorem prefix_sets_only_the_prefix
    (C : collaborator) (value : option string) (st : state) :
  let stored := match value with None => "" | Some s => s end in
  let st' := snd (prefix value st) in
  prefix value st
  = (Return tt,
     (fst st,
      {| _session_id := _session_id (snd st);
         _ttl_timer := _ttl_timer (snd st);
         _item := _item (snd st);
         _prefix := stored |}))
  /\ key (snd st') = key (snd st)
  /\ forall k v behavior ttl renew_before_ttl,
       ttl_allowed ttl ->
       _item (snd (snd (_acquire C k v behavior ttl renew_before_ttl st')))
       = Some (stored ++ "/"
               ++ (if truthy k
                   then match k with Some s => s | None => "" end
                   else uuid4 C (uuids (fst st)))).
Proof.
  intros stored st'.
  assert (Hrun : prefix value st
                 = (Return tt, (fst st, set_prefix stored (snd st)))).
  { unfold prefix, modify. do 3 f_equal. subst stored.
    destruct value as [s |]; [| reflexivity].
    unfold truthy. destruct (String.eqb_spec s ""); [now subst s | reflexivity]. }
  split; [exact Hrun |].
  subst st'. rewrite Hrun. cbn [snd].
  split; [reflexivity |].
  intros k v behavior ttl renew_before_ttl Hok.
  rewrite _acquire_outcome by exact Hok.
  destruct (write_granted _ _ _ _ _ _); cbn [snd].
  - rewrite item_after_grant. reflexivity.
  - reflexivity.
Qed.

Lemma prefix_sets_only_the_prefix_witness :
  _item (snd (snd (_acquire granting job_1 None None None 5
                     (snd (prefix None (__init__ granting empty_world))))))
  = Some "/job-1".
Proof.
  refine (proj2 (proj2
            (prefix_sets_only_the_prefix granting None
               (__init__ granting empty_world)))
            job_1 None None None 5 _).
  exact I.
Defined.

(** ** Leaving the [with] block *)

(** C1.  What the code does when the body of the [with] block raises after
    [_acquire] returned: the exception leaves the block in the very state
    the body reached.  [_release] is not entered: the timer is not
    stopped, and no release write, delete or destroy is issued. *)
Theorem body_exception_skips_release
    (C : collaborator) (key value behavior : option string) (ttl : option Z)
    (renew_before_ttl : Z) (body : M unit) (st st1 st2 : state) (e : exn) :
  _acquire C key value behavior ttl renew_before_ttl st = (Return tt, st1) ->
  body st1 = (Raise e, st2) ->
  with_contextmanager (acquire C key value behavior ttl renew_before_ttl) body st
  = (Raise e, st2).
Proof.
  intros Hacquire Hbody.
  unfold with_contextmanager, acquire. cbn [before_yield after_yield].
  rewrite Hacquire, Hbody. reflexivity.
Qed.

Lemma body_exception_skips_release_witness :
  let entered := snd (_acquire granting job_1 None None (Some 30) 5
                        (__init__ granting empty_world)) in
  with_contextmanager (acquire granting job_1 None None (Some 30) 5)
    (raise (CallerError "boom")) (__init__ granting empty_world)
  = (Raise (CallerError "boom"), entered)
  /\ _session_id (snd entered) = Some "session-0"
  /\ _ttl_timer (snd entered) = Some (renewal_thread 25)
  /\ calls (fst entered)
     = [session_create None (Some "30s") "session-0";
        kv_put (Some "consulate/locks/job-1") (acquire_by (Some "session-0"))
          None true].
Proof.
  intros entered.
  split; [| vm_compute; repeat split].
  apply (body_exception_skips_release granting job_1 None None (Some 30) 5
           (raise (CallerError "boom")) (__init__ granting empty_world)
           entered entered).
  - vm_compute. reflexivity.
  - reflexivity.
Defined.

(** C2.  What the code does on a handle without a timer object once an
    [_acquire] without [ttl] has returned: [_release] raises
    [AttributeError] on its first line.  No call is made and nothing is
    reset: the session and the item stay in the handle.  The [with] block
    whose body returns ends in that same error. *)
Theorem release_after_plain_acquire_raises
    (C : collaborator) (key value behavior : option string)
    (renew_before_ttl : Z) (st st1 : state) :
  _ttl_timer (snd st) = None ->
  _acquire C key value behavior None renew_before_ttl st = (Return tt, st1) ->
  _release C st1
  = (Raise (AttributeError "'NoneType' object has no attribute 'active'"), st1)
  /\ with_contextmanager (acquire C key value behavior None renew_before_ttl)
       (ret tt) st
     = (Raise (AttributeError "'NoneType' object has no attribute 'active'"),
        st1)
  /\ _session_id (snd st1) <> None
  /\ _item (snd st1) <> None.
Proof.
  intros Hnone Hacquire.
  destruct (_acquire_cases C key value behavior None renew_before_ttl
              st _ _ Hacquire)
    as [[m [Httl _]] | [[_ [_ [_ Hst]]] | [_ [_ [Hr _]]]]];
    [discriminate Httl | | discriminate Hr].
  assert (Hfault :
            _release C st1
            = (Raise (AttributeError "'NoneType' object has no attribute 'active'"),
               st1)).
  { apply _release_without_timer. subst st1. exact Hnone. }
  split; [exact Hfault |].
  split.
  - unfold with_contextmanager, acquire, ret. cbn [before_yield after_yield].
    rewrite Hacquire. exact Hfault.
  - subst st1. split; discriminate.
Qed.

Lemma release_after_plain_acquire_raises_witness :
  let entered := snd (_acquire granting job_1 None None None 5
                        (__init__ granting empty_world)) in
  _release granting entered
  = (Raise (AttributeError "'NoneType' object has no attribute 'active'"),
     entered).
Proof.
  intros entered.
  refine (proj1
            (release_after_plain_acquire_raises granting job_1 None None 5
               (__init__ granting empty_world) entered _ _)).
  - reflexivity.
  - vm_compute. reflexivity.
Defined.

(** C3.  What the code does on a handle on which nothing was ever
    acquired: [_release] raises [AttributeError] from the absent timer,
    leaving the state as it was. *)
Theorem release_on_new_handle_raises (C : collaborator) (w : world) :
  _release C (__init__ C w)
  = (Raise (AttributeError "'NoneType' object has no attribute 'active'"),
     __init__ C w).
Proof.
  apply _release_without_timer. reflexivity.
Qed.

(** ** The renewal loop after a failed renewal *)

(** C4, as stated, fails: with the flag set, three renewals that each
    return [False] are issued back to back, two of them after the first
    failure, and the loop has not been left. *)
Lemma renew_repeats_after_failure :
  renew 25 [renew_fails; renew_fails; renew_fails]
  = ([log_renewing (Some "consulate/locks/job-1") (Some "session-0") 25;
      renew_call (Some "session-0") false;
      log_renewing (Some "consulate/locks/job-1") (Some "session-0") 25;
      renew_call (Some "session-0") false;
      log_renewing (Some "consulate/locks/job-1") (Some "session-0") 25;
      renew_call (Some "session-0") false],
     false)
  /\ renews_after_failure
       (fst (renew 25 [renew_fails; renew_fails; renew_fails])) = 2%nat.
Proof.
  split; reflexivity.
Qed.

Lemma filter_app_length {A} (f : A -> bool) (l l' : list A) :
  List.length (filter f (l ++ l'))
  = (List.length (filter f l) + List.length (filter f l'))%nat.
Proof.
  rewrite filter_app. apply length_app.
Qed.

(** C4, amended.  The loop issues one [renew] on every pass that finds the
    flag set, whatever the earlier ones returned; it pauses after the
    successful ones only; and it is left exactly when a pass finds the
    flag cleared.  Its events are, pass by pass, the renewing line, the
    [renew] call and, after a call that succeeded only, a pause of
    [timer_ttl]; then the ceasing line, when a pass found the flag cleared.
    [renew] is total: an answer [False] raises nothing. *)
Theorem renew_retries_while_active
    (timer_ttl : Z) (schedule : list observation) :
  let events := fst (renew timer_ttl schedule) in
  List.length (filter is_renew_call events)
  = List.length (live_passes schedule)
  /\ List.length (filter is_sleep events)
     = List.length (filter renew_answer (live_passes schedule))
  /\ (snd (renew timer_ttl schedule) = true
      <-> exists o, In o schedule /\ seen_active o = false)
  /\ events
     = (flat_map (pass_events timer_ttl) (live_passes schedule)
        ++ ceasing_line schedule)%list
  /\ (snd (renew timer_ttl schedule) = true
      <-> first_cleared schedule <> None).
Proof.
  unfold ceasing_line.
  induction schedule as [| o later [IHcalls [IHsleeps [IHleft [IHevents IHoff]]]]];
    cbn [renew live_passes first_cleared fst snd].
  - repeat split; try reflexivity; try discriminate.
    + intros [o [[] _]].
    + intros Hnone. now contradiction Hnone.
  - destruct (seen_active o) eqn:Hactive; cbn [fst snd].
    + split; [| split; [| split; [| split]]].
      * rewrite filter_app_length, IHcalls.
        destruct (renew_answer o); reflexivity.
      * rewrite filter_app_length, IHsleeps.
        cbn [filter]. destruct (renew_answer o); reflexivity.
      * rewrite IHleft. split.
        -- intros [o' [Hin Hoff]]. exists o'. split; [now right | exact Hoff].
        -- intros [o' [[Heq | Hin] Hoff]].
           ++ subst o'. congruence.
           ++ exists o'. now split.
      * cbn [flat_map]. unfold pass_events at 1.
        rewrite IHevents, <- app_assoc. reflexivity.
      * exact IHoff.
    + repeat split; try reflexivity; try discriminate.
      intros _. exists o. split; [now left | exact Hactive].
Qed.

(** ** The timer field of an unheld handle *)

(** C8, as stated, fails: after a [with] block with [ttl] 30 has been left
    normally, nothing is held, no lease either, and the timer field still
    holds the thread object. *)
Lemma timer_object_survives_release :
  let self :=
    snd (invoke_all granting [call_with job_1 None None (Some 30) 5 None]
           (__init__ granting empty_world)) in
  _session_id self = None
  /\ _item self = None
  /\ _ttl_timer self = Some (StoppableThread.set_active false (renewal_thread 25))
  /\ _ttl_timer self <> None
  /\ holds_lease granting [call_with job_1 None None (Some 30) 5 None]
       (__init__ granting empty_world) false
     = false.
Proof.
  vm_compute. repeat split. discriminate.
Qed.

(** What [_acquire] does to the timer field and to the started threads:
    nothing, or, when it returns from a call with a [ttl], it puts one new
    thread in the field and starts it. *)
Lemma _acquire_timer_effect C key value behavior ttl renew_before_ttl st :
  let r := fst (_acquire C key value behavior ttl renew_before_ttl st) in
  let st' := snd (_acquire C key value behavior ttl renew_before_ttl st) in
  (_ttl_timer (snd st') = _ttl_timer (snd st)
   /\ started (fst st') = started (fst st))
  \/ (exists th n,
         ttl = Some n /\ r = Return tt
         /\ _ttl_timer (snd st') = Some th
         /\ started (fst st') = (started (fst st) ++ [th])%list).
Proof.
  intros r st'. subst r st'.
  destruct (_acquire C key value behavior ttl renew_before_ttl st)
    as [r st'] eqn:Hrun.
  cbn [fst snd].
  destruct (_acquire_cases C key value behavior ttl renew_before_ttl st r st' Hrun)
    as [[n [_ [_ [Hst _]]]] | [[_ [_ [Hr Hst]]] | [_ [_ [_ Hst]]]]];
    subst st'.
  - left. now split.
  - unfold after_grant, new_timer.
    destruct ttl as [n |]; [| left; now split].
    destruct (0 <? n - renew_before_ttl); [| left; now split].
    right. exists (renewal_thread (n - renew_before_ttl)), n.
    repeat split. exact Hr.
  - left. now split.
Qed.

Lemma _acquire_keeps_idle C key value behavior ttl renew_before_ttl st :
  timer_idle_when_unheld (snd st) ->
  timer_idle_when_unheld
    (snd (snd (_acquire C key value behavior ttl renew_before_ttl st))).
Proof.
  intros Hidle.
  destruct (_acquire C key value behavior ttl renew_before_ttl st)
    as [r st'] eqn:Hrun.
  destruct (_acquire_cases C key value behavior ttl renew_before_ttl st r st' Hrun)
    as [[n [_ [_ [Hst _]]]] | [[_ [_ [_ Hst]]] | [_ [_ [_ Hst]]]]];
    subst st'; cbn [snd].
  - exact Hidle.
  - intros Hnone. rewrite session_after_grant in Hnone. discriminate.
  - intros Hnone. discriminate.
Qed.

Lemma _acquire_keeps_timer_invariant
    before C key value behavior ttl renew_before_ttl st held :
  timer_invariant before st held ->
  timer_invariant before
    (snd (_acquire C key value behavior ttl renew_before_ttl st))
    (lease_after_acquire
       (fst (_acquire C key value behavior ttl renew_before_ttl st)) ttl held).
Proof.
  intros [Hunheld [Hlease [more [Hstarted Hnone]]]].
  pose proof (_acquire_keeps_idle C key value behavior ttl renew_before_ttl
                st Hunheld) as Hunheld'.
  destruct (_acquire_timer_effect C key value behavior ttl renew_before_ttl st)
    as [[Htimer Hsame] | [th [n [Httl [Hr [Htimer Hmore]]]]]].
  - split; [exact Hunheld' | split].
    + intros Hheld. unfold timer_idle. rewrite Htimer. apply Hlease.
      unfold lease_after_acquire in Hheld.
      destruct (fst (_acquire C key value behavior ttl renew_before_ttl st));
        [destruct ttl; [discriminate Hheld | exact Hheld] | exact Hheld].
    + exists more. rewrite Hsame, Htimer. now split.
  - split; [exact Hunheld' | split].
    + rewrite Hr, Httl. discriminate.
    + exists (more ++ [th])%list. rewrite Hmore, Hstarted, Htimer, app_assoc.
      split; [reflexivity |].
      split; [discriminate |].
      intros Hempty. now apply app_eq_nil in Hempty.
Qed.

Lemma _release_keeps_timer_invariant before C st held :
  timer_invariant before st held ->
  timer_invariant before (snd (_release C st))
    (lease_after_release (fst (_release C st)) held).
Proof.
  intros [Hunheld [Hlease [more [Hstarted Hnone]]]].
  destruct (_ttl_timer (snd st)) as [th |] eqn:Htimer.
  - destruct (_release_clears_flag C st th Htimer)
      as [Hflag [_ Hsame]].
    assert (Hidle : timer_idle (snd (snd (_release C st))))
      by (unfold timer_idle; now rewrite Hflag).
    split; [intros _; exact Hidle | split; [intros _; exact Hidle |]].
    exists more. rewrite Hsame, Hflag.
    split; [exact Hstarted |].
    split; [discriminate |].
    intros Hempty. apply Hnone in Hempty. discriminate.
  - rewrite (_release_without_timer C st Htimer). cbn [fst snd].
    split; [exact Hunheld | split].
    + intros _. unfold timer_idle. now rewrite Htimer.
    + exists more. rewrite Htimer. now split.
Qed.

Lemma invoke_keeps_timer_invariant before C m st held :
  timer_invariant before st held ->
  timer_invariant before (snd (invoke C m st)) (holds_lease_after C m st held).
Proof.
  intros Hinv.
  destruct m as [k v b ttl rbt | | v | k v b ttl rbt outcome];
    cbn [invoke holds_lease_after].
  - now apply _acquire_keeps_timer_invariant.
  - now apply _release_keeps_timer_invariant.
  - exact Hinv.
  - unfold with_contextmanager, acquire. cbn [before_yield after_yield].
    pose proof (_acquire_keeps_timer_invariant before C k v b ttl rbt st held
                  Hinv) as Hentered.
    destruct (_acquire C k v b ttl rbt st) as [[[] | e] st1];
      cbn [fst snd] in *.
    + destruct outcome as [e |]; unfold ret, raise.
      * exact Hentered.
      * now apply _release_keeps_timer_invariant.
    + exact Hentered.
Qed.

(** C8, amended.  [_release] keeps the thread object in the timer field
    and clears its flag.  So in every state reached from a new handle by
    calls of its methods: a handle without a session, and likewise a
    handle that holds no lease-based lock, has a timer field that is
    [None] or holds a thread whose flag is cleared; and the field is
    [None] exactly as long as no call has started a thread. *)
Theorem unheld_handle_has_no_active_timer
    (C : collaborator) (ms : list method) (w : world) :
  (forall st th,
      _ttl_timer (snd st) = Some th ->
      _ttl_timer (snd (snd (_release C st)))
      = Some (StoppableThread.set_active false th))
  /\ let st' := invoke_all C ms (__init__ C w) in
     let self := snd st' in
     (_session_id self = None ->
      match _ttl_timer self with
      | None => True
      | Some th => StoppableThread.active th = false
      end)
     /\ (holds_lease C ms (__init__ C w) false = false ->
         match _ttl_timer self with
         | None => True
         | Some th => StoppableThread.active th = false
         end)
     /\ (_ttl_timer self = None <-> started (fst st') = started w).
Proof.
  split.
  - intros st th Htimer. exact (proj1 (_release_clears_flag C st th Htimer)).
  - assert (Hstart : timer_invariant (started w) (__init__ C w) false).
    { split; [intros _; exact I | split; [intros _; exact I |]].
      exists []. cbn. rewrite app_nil_r. now split. }
    assert (Hend : timer_invariant (started w)
                     (invoke_all C ms (__init__ C w))
                     (holds_lease C ms (__init__ C w) false)).
    { revert Hstart. generalize (__init__ C w), false.
      induction ms as [| m later IH]; intros st held Hinv;
        cbn [invoke_all holds_lease].
      - exact Hinv.
      - apply IH. now apply invoke_keeps_timer_invariant. }
    destruct Hend as [Hunheld [Hlease [more [Hstarted Hnone]]]].
    cbv zeta. split; [exact Hunheld | split; [exact Hlease |]].
    rewrite Hnone, Hstarted. split.
    + intros Hempty. subst more. apply app_nil_r.
    + intros Hsame.
      apply (app_inv_head (started w)). now rewrite app_nil_r.
Qed.

Lemma unheld_handle_has_no_active_timer_witness :
  match
    _ttl_timer
      (snd (invoke_all granting
              [call_with job_1 None None (Some 30) 5 None;
               call_acquire job_1 None None None 5]
              (__init__ granting empty_world)))
  with
  | None => True
  | Some th => StoppableThread.active th = false
  end.
Proof.
  refine (proj1 (proj2 (proj2
            (unheld_handle_has_no_active_timer granting
               [call_with job_1 None None (Some 30) 5 None;
                call_acquire job_1 None None None 5]
               empty_world))) _).
  reflexivity.
Defined.

(** ** The handle after a refused write *)

(** C10.  What the code does on a handle without a timer object whose
    [_acquire] raised [LockFailure]: the handle keeps the id of the
    session just destroyed and the path it tried, which [key] returns,
    and a later [_release] raises [AttributeError] on its first line,
    before any call: it issues no release write, no delete and no
    destroy. *)
Theorem release_after_refused_acquire_raises
    (C : collaborator) (key0 value behavior : option string) (ttl : option Z)
    (renew_before_ttl : Z) (st st1 : state) :
  _ttl_timer (snd st) = None ->
  _acquire C key0 value behavior ttl renew_before_ttl st
  = (Raise LockFailure, st1) ->
  _release C st1
  = (Raise (AttributeError "'NoneType' object has no attribute 'active'"), st1)
  /\ new_calls st1 (snd (_release C st1)) = []
  /\ exists sid item,
       _session_id (snd st1) = Some sid
       /\ _item (snd st1) = Some item
       /\ key (snd st1) = Some item.
Proof.
  intros Hnone Hrun.
  destruct (_acquire_cases C key0 value behavior ttl renew_before_ttl
              st _ _ Hrun)
    as [[n [_ [_ [_ Hr]]]] | [[_ [_ [Hr _]]] | [_ [_ [_ Hst]]]]];
    [discriminate Hr | discriminate Hr |].
  assert (Hfault :
            _release C st1
            = (Raise (AttributeError "'NoneType' object has no attribute 'active'"),
               st1)).
  { apply _release_without_timer. subst st1. exact Hnone. }
  split; [exact Hfault |].
  split.
  - rewrite Hfault. cbn [snd]. unfold new_calls. apply skipn_all.
  - subst st1.
    exists (new_session C behavior ttl st), (new_item C key0 st).
    repeat split.
Qed.

Lemma release_after_refused_acquire_raises_witness :
  let failed :=
    _acquire (held_elsewhere 0) job_1 None None None 5
      (__init__ (held_elsewhere 0) empty_world) in
  fst failed = Raise LockFailure
  /\ _release (held_elsewhere 0) (snd failed)
     = (Raise (AttributeError "'NoneType' object has no attribute 'active'"),
        snd failed)
  /\ new_calls (snd failed) (snd (_release (held_elsewhere 0) (snd failed)))
     = [].
Proof.
  intros failed.
  split; [reflexivity |].
  destruct (release_after_refused_acquire_raises (held_elsewhere 0)
              job_1 None None None 5
              (__init__ (held_elsewhere 0) empty_world) (snd failed))
    as [Hfault [Hcalls _]].
  - reflexivity.
  - reflexivity.
  - split; [exact Hfault | exact Hcalls].
Defined.

(** X15.  After [LockFailure] the handle holds the id of the session that
    [_acquire] created and has just destroyed, and the path it tried,
    which [key] returns.  On a handle that holds a timer object, a later
    [_release] returns after a release write, a delete and a second
    destroy, all for that path and that session. *)
Theorem refused_acquire_keeps_session_and_item
    (C : collaborator) (key0 value behavior : option string) (ttl : option Z)
    (renew_before_ttl : Z) (st st1 : state) :
  _acquire C key0 value behavior ttl renew_before_ttl st
  = (Raise LockFailure, st1) ->
  exists sid item answer,
    _session_id (snd st1) = Some sid
    /\ _item (snd st1) = Some item
    /\ key (snd st1) = Some item
    /\ item = _prefix (snd st) ++ "/"
              ++ (if truthy key0
                  then match key0 with Some s => s | None => "" end
                  else uuid4 C (uuids (fst st)))
    /\ (exists earlier,
           calls (fst st1)
           = (earlier ++ [session_destroy (Some sid) answer])%list)
    /\ forall th,
         _ttl_timer (snd st1) = Some th ->
         exists a b c st2,
           _release C st1 = (Return tt, st2)
           /\ new_calls st1 st2
              = [kv_put (Some item) (release_by (Some sid)) None a;
                 kv_delete (Some item) b;
                 session_destroy (Some sid) c].
Proof.
  intros Hrun.
  destruct (_acquire_cases C key0 value behavior ttl renew_before_ttl
              st _ _ Hrun)
    as [[n [_ [_ [_ Hr]]]] | [[_ [_ [Hr _]]] | [_ [_ [_ Hst]]]]];
    [discriminate Hr | discriminate Hr |].
  exists (new_session C behavior ttl st), (new_item C key0 st),
    (destroy_ret C (calls (after_write C key0 value behavior ttl st))
       (Some (new_session C behavior ttl st))).
  subst st1.
  split; [reflexivity |].
  split; [reflexivity |].
  split; [reflexivity |].
  split; [reflexivity |].
  split.
  - exists (calls (after_write C key0 value behavior ttl st)). reflexivity.
  - intros th Htimer.
    rewrite (_release_with_timer C _ th (new_item C key0 st) Htimer eq_refl).
    do 4 eexists. split; [reflexivity |].
    unfold new_calls. cbn [fst calls].
    rewrite skipn_length_app. reflexivity.
Qed.

Lemma refused_acquire_keeps_session_and_item_witness :
  let used :=
    invoke_all (held_elsewhere 2) [call_with job_1 None None (Some 30) 5 None]
      (__init__ (held_elsewhere 2) empty_world) in
  let failed :=
    snd (_acquire (held_elsewhere 2) job_1 None None None 5 used) in
  key (snd failed) = Some "consulate/locks/job-1"
  /\ exists a b c st2,
       _release (held_elsewhere 2) failed = (Return tt, st2)
       /\ new_calls failed st2
          = [kv_put (Some "consulate/locks/job-1")
               (release_by (Some "session-5")) None a;
             kv_delete (Some "consulate/locks/job-1") b;
             session_destroy (Some "session-5") c].
Proof.
  intros used failed.
  destruct (refused_acquire_keeps_session_and_item (held_elsewhere 2)
              job_1 None None None 5 used failed)
    as [sid [item [answer [Hsid [Hitem [Hkey [_ [_ Hrelease]]]]]]]].
  - vm_compute. reflexivity.
  - assert (Hs : sid = "session-5") by (vm_compute in Hsid; congruence).
    assert (Hi : item = "consulate/locks/job-1")
      by (vm_compute in Hitem; congruence).
    subst sid item.
    split; [exact Hkey |].
    apply (Hrelease (StoppableThread.set_active false (renewal_thread 25))).
    reflexivity.
Defined.

(** ** More on [_acquire] *)

Section AcquireTraces.

Variable C : collaborator.
Variables key value behavior : option string.
Variable ttl : option Z.
Variable renew_before_ttl : Z.
Variable st : state.

Lemma new_calls_none : new_calls st st = [].
Proof.
  unfold new_calls. apply skipn_all.
Qed.

Lemma new_calls_after_grant :
  new_calls st (after_grant C key value behavior ttl renew_before_ttl st)
  = [create_call C behavior ttl st; write_call C key value behavior ttl st].
Proof.
  unfold new_calls. rewrite calls_after_grant. apply skipn_length_app.
Qed.

Lemma new_calls_after_refusal :
  new_calls st (after_refusal C key value behavior ttl st)
  = [create_call C behavior ttl st; write_call C key value behavior ttl st;
     cleanup_call C key value behavior ttl st].
Proof.
  unfold new_calls. rewrite calls_after_refusal. apply skipn_length_app.
Qed.

Lemma prefix_after_grant :
  _prefix (snd (after_grant C key value behavior ttl renew_before_ttl st))
  = _prefix (snd st).
Proof.
  unfold after_grant. destruct (new_timer ttl renew_before_ttl); reflexivity.
Qed.

End AcquireTraces.

(** X1.  An [_acquire] that returns has made two calls and no more: it
    created one session, with the behavior and the [ttl] given, and wrote
    once, with an acquire clause for that session, the value given, and the
    answer [True].  The handle then holds that session and that path, which
    [key] returns; its prefix is as before. *)
Theorem returned_acquire_created_and_wrote_once
    (C : collaborator) (key0 value behavior : option string) (ttl : option Z)
    (renew_before_ttl : Z) (st st' : state) :
  _acquire C key0 value behavior ttl renew_before_ttl st = (Return tt, st') ->
  exists sid item,
    new_calls st st'
    = [session_create behavior (ttl_argument ttl) sid;
       kv_put (Some item) (acquire_by (Some sid)) value true]
    /\ _session_id (snd st') = Some sid
    /\ _item (snd st') = Some item
    /\ key (snd st') = Some item
    /\ _prefix (snd st') = _prefix (snd st).
Proof.
  intros Hrun.
  destruct (_acquire_cases C key0 value behavior ttl renew_before_ttl
              st _ _ Hrun)
    as [[n [_ [_ [_ Hr]]]] | [[_ [Hg [_ Hst]]] | [_ [_ [Hr _]]]]];
    [discriminate Hr | | discriminate Hr].
  subst st'.
  exists (new_session C behavior ttl st), (new_item C key0 st).
  rewrite new_calls_after_grant. unfold key.
  rewrite session_after_grant, item_after_grant, prefix_after_grant.
  unfold create_call, write_call. rewrite Hg. repeat split.
Qed.

Lemma returned_acquire_created_and_wrote_once_witness :
  exists sid item,
    new_calls (__init__ granting empty_world)
      (snd (_acquire granting job_1 None None None 5
              (__init__ granting empty_world)))
    = [session_create None None sid;
       kv_put (Some item) (acquire_by (Some sid)) None true].
Proof.
  destruct (returned_acquire_created_and_wrote_once granting job_1 None None
              None 5 (__init__ granting empty_world)
              (snd (_acquire granting job_1 None None None 5
                      (__init__ granting empty_world))))
    as [sid [item [Hcalls _]]].
  - vm_compute. reflexivity.
  - exists sid, item. exact Hcalls.
Defined.

(** X2.  When [_acquire] raises one of its own two errors, for keys that
    are strings or [None], integer [ttl] and [renew_before_ttl], and
    collaborator calls that return.  It raises [ValueError] exactly when a
    [ttl] below 10 was given (10 itself passes), and [LockFailure] exactly
    when its conditional write was answered [False]. *)
Theorem acquire_raises_on_small_ttl_or_refusal
    (C : collaborator) (key value behavior : option string) (ttl : option Z)
    (renew_before_ttl : Z) (st : state) :
  let r := fst (_acquire C key value behavior ttl renew_before_ttl st) in
  let st' := snd (_acquire C key value behavior ttl renew_before_ttl st) in
  (r = Raise (ValueError "ttl is less than the minimum (10s)")
   <-> exists n, ttl = Some n /\ n < 10)
  /\ (r = Raise LockFailure
      <-> exists item sid v,
            In (kv_put item (acquire_by sid) v false) (new_calls st st')).
Proof.
  intros r st'. subst r st'.
  destruct (_acquire C key value behavior ttl renew_before_ttl st)
    as [r st'] eqn:Hrun.
  cbn [fst snd].
  destruct (_acquire_cases C key value behavior ttl renew_before_ttl st r st' Hrun)
    as [[n [Httl [Hn [Hst Hr]]]] | [[Hok [Hg [Hr Hst]]] | [Hok [Hg [Hr Hst]]]]];
    subst r st'.
  - split.
    + split; [intros _; eauto | reflexivity].
    + rewrite new_calls_none. split; [discriminate |].
      intros [item [sid [v []]]].
  - split.
    + split; [discriminate |].
      intros [n [Httl Hn]]. subst ttl. unfold ttl_allowed in Hok. lia.
    + rewrite new_calls_after_grant. split; [discriminate |].
      intros [item [sid [v Hin]]]. unfold create_call, write_call in Hin.
      rewrite Hg in Hin.
      destruct Hin as [Hin | [Hin | []]]; discriminate Hin.
  - split.
    + split; [discriminate |].
      intros [n [Httl Hn]]. subst ttl. unfold ttl_allowed in Hok. lia.
    + rewrite new_calls_after_refusal. split; [| reflexivity].
      intros _.
      exists (Some (new_item C key st)),
        (Some (new_session C behavior ttl st)), value.
      right. left. unfold write_call. rewrite Hg. reflexivity.
Qed.

(** X3.  When [_acquire] raises, the [with] block raises the same error in
    the same state whatever its body is: the body does not run, and no
    release write and no delete is among the calls made. *)
Theorem failed_enter_runs_neither_body_nor_release
    (C : collaborator) (key value behavior : option string) (ttl : option Z)
    (renew_before_ttl : Z) (body : M unit) (st st1 : state) (e : exn) :
  _acquire C key value behavior ttl renew_before_ttl st = (Raise e, st1) ->
  with_contextmanager (acquire C key value behavior ttl renew_before_ttl)
    body st
  = (Raise e, st1)
  /\ forallb (fun c => negb (is_release_step c)) (new_calls st st1) = true.
Proof.
  intros Hrun. split.
  - unfold with_contextmanager, acquire. cbn [before_yield].
    rewrite Hrun. reflexivity.
  - destruct (_acquire_cases C key value behavior ttl renew_before_ttl
                st _ _ Hrun)
      as [[n [_ [_ [Hst _]]]] | [[_ [_ [Hr _]]] | [_ [_ [_ Hst]]]]];
      [| discriminate Hr |]; subst st1.
    + rewrite new_calls_none. reflexivity.
    + rewrite new_calls_after_refusal. reflexivity.
Qed.

Lemma failed_enter_runs_neither_body_nor_release_witness :
  fst (with_contextmanager
         (acquire (held_elsewhere 0) job_1 None None (Some 30) 5)
         (raise (CallerError "never raised"))
         (__init__ (held_elsewhere 0) empty_world))
  = Raise LockFailure.
Proof.
  rewrite (proj1
             (failed_enter_runs_neither_body_nor_release (held_elsewhere 0)
                job_1 None None (Some 30) 5
                (raise (CallerError "never raised"))
                (__init__ (held_elsewhere 0) empty_world)
                (snd (_acquire (held_elsewhere 0) job_1 None None (Some 30) 5
                        (__init__ (held_elsewhere 0) empty_world)))
                LockFailure eq_refl)).
  reflexivity.
Defined.

(** ** More on [_release] and the [with] block *)

(** X4.  A [with] block whose [_acquire] returned on a handle that then
    holds a timer object, and whose body returns without touching the
    handle, ends normally.  After the body's calls it makes three more, in
    this order: a release write and a delete for the path that was locked,
    and a destroy of the session that locked it.  The handle ends with no
    session and no item, the same timer object with its flag cleared, and
    the prefix it had. *)
Theorem with_block_releases_what_it_acquired
    (C : collaborator) (key0 value behavior : option string) (ttl : option Z)
    (renew_before_ttl : Z) (body : M unit) (st st1 st2 : state)
    (th : StoppableThread.t) :
  _acquire C key0 value behavior ttl renew_before_ttl st = (Return tt, st1) ->
  _ttl_timer (snd st1) = Some th ->
  body st1 = (Return tt, st2) ->
  snd st2 = snd st1 ->
  exists sid item a b c st3,
    with_contextmanager (acquire C key0 value behavior ttl renew_before_ttl)
      body st
    = (Return tt, st3)
    /\ In (kv_put (Some item) (acquire_by (Some sid)) value true)
         (new_calls st st1)
    /\ new_calls st2 st3
       = [kv_put (Some item) (release_by (Some sid)) None a;
          kv_delete (Some item) b;
          session_destroy (Some sid) c]
    /\ snd st3
       = {| _session_id := None;
            _ttl_timer := Some (StoppableThread.set_active false th);
            _item := None;
            _prefix := _prefix (snd st) |}.
Proof.
  intros Hacquire Htimer Hbody Hsame.
  destruct (_acquire_cases C key0 value behavior ttl renew_before_ttl
              st _ _ Hacquire)
    as [[n [_ [_ [_ Hr]]]] | [[_ [Hg [_ Hst]]] | [_ [_ [Hr _]]]]];
    [discriminate Hr | | discriminate Hr].
  assert (Htimer2 : _ttl_timer (snd st2) = Some th) by now rewrite Hsame.
  assert (Hitem2 : _item (snd st2) = Some (new_item C key0 st))
    by (rewrite Hsame, Hst; apply item_after_grant).
  exists (new_session C behavior ttl st), (new_item C key0 st).
  do 3 eexists. eexists.
  split.
  { unfold with_contextmanager, acquire. cbn [before_yield after_yield].
    rewrite Hacquire, Hbody.
    apply (_release_with_timer C st2 th _ Htimer2 Hitem2). }
  split.
  { subst st1. rewrite new_calls_after_grant.
    right. left. unfold write_call. now rewrite Hg. }
  split.
  { unfold new_calls. cbn [fst calls]. rewrite skipn_length_app.
    unfold release_write, release_delete, release_destroy.
    rewrite Hsame. subst st1.
    rewrite item_after_grant, session_after_grant. reflexivity. }
  cbn [snd]. rewrite Hsame. subst st1.
  now rewrite prefix_after_grant.
Qed.

Lemma with_block_releases_what_it_acquired_witness :
  with_contextmanager (acquire granting job_1 None None (Some 30) 5) (ret tt)
    (__init__ granting empty_world)
  = (Return tt,
     ({| calls :=
           [session_create None (Some "30s") "session-0";
            kv_put (Some "consulate/locks/job-1")
              (acquire_by (Some "session-0")) None true;
            kv_put (Some "consulate/locks/job-1")
              (release_by (Some "session-0")) None true;
            kv_delete (Some "consulate/locks/job-1") true;
            session_destroy (Some "session-0") true];
         started := [renewal_thread 25];
         uuids := 1 |},
      {| _session_id := None;
         _ttl_timer := Some (StoppableThread.set_active false (renewal_thread 25));
         _item := None;
         _prefix := DEFAULT_PREFIX |})).
Proof.
  destruct (with_block_releases_what_it_acquired granting job_1 None None
              (Some 30) 5 (ret tt) (__init__ granting empty_world)
              (snd (_acquire granting job_1 None None (Some 30) 5
                      (__init__ granting empty_world)))
              (snd (_acquire granting job_1 None None (Some 30) 5
                      (__init__ granting empty_world)))
              (renewal_thread 25))
    as [sid [item [a [b [c [st3 [Hrun _]]]]]]].
  - vm_compute. reflexivity.
  - reflexivity.
  - vm_compute. reflexivity.
  - reflexivity.
  - vm_compute. reflexivity.
Defined.

(** X5.  [_release] does not look at what its calls return.  On a handle
    that holds an item and has a timer object it returns normally and
    leaves the same handle whatever the collaborator answers to the
    release write, the delete and the destroy, [False] included: a cleanup
    that failed is not reported. *)
Theorem release_ignores_the_answers
    (C C' : collaborator) (st : state) (th : StoppableThread.t)
    (path : string) :
  _ttl_timer (snd st) = Some th ->
  _item (snd st) = Some path ->
  fst (_release C st) = Return tt
  /\ fst (_release C' st) = Return tt
  /\ snd (snd (_release C st)) = snd (snd (_release C' st))
  /\ _session_id (snd (snd (_release C st))) = None
  /\ _item (snd (snd (_release C st))) = None.
Proof.
  intros Htimer Hitem.
  rewrite (_release_with_timer C st th path Htimer Hitem),
    (_release_with_timer C' st th path Htimer Hitem).
  repeat split.
Qed.

Lemma release_ignores_the_answers_witness :
  let held :=
    snd (_acquire granting job_1 None None (Some 30) 5
           (__init__ granting empty_world)) in
  let failing :=
    {| create_ret := create_ret granting;
       renew_ret := fun _ _ => false;
       destroy_ret := fun _ _ => false;
       put_ret := fun _ _ _ _ => false;
       delete_ret := fun _ _ => false;
       uuid4 := uuid4 granting |} in
  fst (_release failing held) = Return tt
  /\ snd (snd (_release granting held)) = snd (snd (_release failing held)).
Proof.
  intros held failing.
  destruct (release_ignores_the_answers granting failing held
              (renewal_thread 25) "consulate/locks/job-1" eq_refl eq_refl)
    as [_ [Hret [Hsame _]]].
  split; [exact Hret | exact Hsame].
Defined.

(** ** Keys, tokens and prefixes *)

(** X6.  An empty key counts as no key: [_acquire] with [''] does what it
    does with [None].  A token is drawn exactly when the key is [None] or
    empty, and the path locked is then the prefix, a slash and that token;
    with any other key no token is drawn. *)
Theorem empty_key_draws_a_token
    (C : collaborator) (key0 value behavior : option string) (ttl : option Z)
    (renew_before_ttl : Z) (st : state) :
  _acquire C (Some "") value behavior ttl renew_before_ttl st
  = _acquire C None value behavior ttl renew_before_ttl st
  /\ (ttl_allowed ttl ->
      let st' := snd (_acquire C key0 value behavior ttl renew_before_ttl st) in
      if truthy key0
      then uuids (fst st') = uuids (fst st)
      else uuids (fst st') = S (uuids (fst st))
           /\ _item (snd st')
              = Some (_prefix (snd st) ++ "/" ++ uuid4 C (uuids (fst st)))).
Proof.
  split; [reflexivity |].
  intros Hok st'. subst st'.
  rewrite _acquire_outcome by exact Hok.
  destruct (write_granted C key0 value behavior ttl st); cbn [snd].
  - rewrite item_after_grant.
    unfold after_grant, new_item, new_name.
    destruct (new_timer ttl renew_before_ttl);
      cbn [fst uuids record_start after_write];
      destruct (truthy key0); repeat split.
  - unfold after_refusal.
    cbn [fst snd uuids record_call after_write held_lock _item].
    unfold new_item, new_name.
    destruct (truthy key0); repeat split.
Qed.

Lemma empty_key_draws_a_token_witness :
  _item (snd (snd (_acquire granting (Some "") None None None 5
                     (__init__ granting empty_world))))
  = Some "consulate/locks/uuid-1".
Proof.
  exact (proj2 (proj2
           (empty_key_draws_a_token granting (Some "") None None None 5
              (__init__ granting empty_world)) I)).
Defined.

(** X7.  Removing the prefix, with [None] or [''], does not remove the
    separator: the next [_acquire] that passes the [ttl] check locks the
    path made of a slash and the key. *)
Theorem removed_prefix_keeps_the_slash
    (C : collaborator) (removed : option string) (k : string)
    (value behavior : option string) (ttl : option Z) (renew_before_ttl : Z)
    (st : state) :
  truthy removed = false ->
  truthy (Some k) = true ->
  ttl_allowed ttl ->
  _item (snd (snd (_acquire C (Some k) value behavior ttl renew_before_ttl
                     (snd (prefix removed st)))))
  = Some ("/" ++ k).
Proof.
  intros Hremoved Hkey Hok.
  rewrite _acquire_outcome by exact Hok.
  assert (Hitem : new_item C (Some k) (snd (prefix removed st)) = "/" ++ k).
  { unfold new_item, new_name. rewrite Hkey.
    unfold prefix, modify. cbn [snd _prefix set_prefix].
    rewrite Hremoved. reflexivity. }
  destruct (write_granted _ _ _ _ _ _); cbn [snd].
  - rewrite item_after_grant, Hitem. reflexivity.
  - unfold after_refusal. cbn [snd held_lock _item]. now rewrite Hitem.
Qed.

Lemma removed_prefix_keeps_the_slash_witness :
  _item (snd (snd (_acquire granting job_1 None None (Some 10) 5
                     (snd (prefix (Some "") (__init__ granting empty_world))))))
  = Some "/job-1".
Proof.
  apply (removed_prefix_keeps_the_slash granting (Some "") "job-1" None None
           (Some 10) 5 (__init__ granting empty_world)).
  - reflexivity.
  - reflexivity.
  - cbn. lia.
Defined.

(** ** What a sequence of calls keeps *)

Lemma method_frame_refl b st : method_frame b st st.
Proof.
  split; [reflexivity |]. exists []. now rewrite app_nil_r.
Qed.

Lemma method_frame_trans st st1 st2 b :
  method_frame false st st1 -> method_frame b st1 st2 ->
  method_frame b st st2.
Proof.
  intros [Hp1 [more1 [Hs1 Hw1]]] [Hp2 [more2 [Hs2 Hw2]]].
  split.
  - intros Hb. now rewrite Hp2, Hp1.
  - exists (more1 ++ more2)%list. split.
    + now rewrite Hs2, Hs1, app_assoc.
    + apply Forall_app. now split.
Qed.

Lemma _acquire_frame C key value behavior ttl renew_before_ttl st :
  method_frame false st
    (snd (_acquire C key value behavior ttl renew_before_ttl st)).
Proof.
  destruct (_acquire C key value behavior ttl renew_before_ttl st)
    as [r st'] eqn:Hrun.
  destruct (_acquire_cases C key value behavior ttl renew_before_ttl st r st' Hrun)
    as [[n [_ [_ [Hst _]]]] | [[_ [_ [_ Hst]]] | [_ [_ [_ Hst]]]]];
    subst st'; cbn [snd].
  - apply method_frame_refl.
  - split; [intros _; apply prefix_after_grant |].
    unfold after_grant, new_timer.
    destruct ttl as [n |].
    + destruct (0 <? n - renew_before_ttl) eqn:Hpos.
      * exists [renewal_thread (n - renew_before_ttl)].
        split; [reflexivity |].
        constructor; [| constructor].
        apply Z.ltb_lt in Hpos. repeat split. exact Hpos.
      * exists []. cbn [fst started after_write]. now rewrite app_nil_r.
    + exists []. cbn [fst started after_write]. now rewrite app_nil_r.
  - split; [reflexivity |].
    exists []. cbn [fst started after_refusal record_call after_write].
    now rewrite app_nil_r.
Qed.

Lemma _release_frame C st : method_frame false st (snd (_release C st)).
Proof.
  destruct (_ttl_timer (snd st)) as [th |] eqn:Htimer.
  - destruct (_release_clears_flag C st th Htimer) as [_ [Hprefix Hsame]].
    split; [intros _; exact Hprefix |].
    exists []. rewrite Hsame, app_nil_r. now split.
  - rewrite (_release_without_timer C st Htimer). apply method_frame_refl.
Qed.

Lemma invoke_frame C m st :
  method_frame (is_prefix_call m) st (snd (invoke C m st)).
Proof.
  destruct m as [k v b ttl rbt | | v | k v b ttl rbt outcome];
    cbn [invoke is_prefix_call].
  - apply _acquire_frame.
  - apply _release_frame.
  - split; [discriminate |]. exists []. cbn. now rewrite app_nil_r.
  - unfold with_contextmanager, acquire. cbn [before_yield after_yield].
    pose proof (_acquire_frame C k v b ttl rbt st) as Hentered.
    destruct (_acquire C k v b ttl rbt st) as [[[] | e] st1]; cbn [snd] in *.
    + destruct outcome as [e |]; unfold ret, raise.
      * exact Hentered.
      * eapply method_frame_trans; [exact Hentered | apply _release_frame].
    + exact Hentered.
Qed.

(** X8.  Only [prefix] changes the prefix: after any sequence of
    [_acquire], [_release] and [with] blocks, whatever they returned or
    raised, the prefix of the handle is the one it had. *)
Theorem only_prefix_changes_the_prefix
    (C : collaborator) (ms : list method) (st : state) :
  forallb (fun m => negb (is_prefix_call m)) ms = true ->
  _prefix (snd (invoke_all C ms st)) = _prefix (snd st).
Proof.
  revert st. induction ms as [| m later IH]; intros st Hnone.
  - reflexivity.
  - cbn [forallb] in Hnone. apply andb_prop in Hnone.
    destruct Hnone as [Hm Hlater]. cbn [invoke_all].
    rewrite (IH _ Hlater).
    apply (proj1 (invoke_frame C m st)).
    now apply negb_true_iff.
Qed.

Lemma only_prefix_changes_the_prefix_witness :
  _prefix
    (snd (invoke_all granting
            [call_with job_1 None None (Some 30) 5 None;
             call_acquire None None None None 5;
             call_release]
            (__init__ granting empty_world)))
  = DEFAULT_PREFIX.
Proof.
  apply (only_prefix_changes_the_prefix granting
           [call_with job_1 None None (Some 30) 5 None;
            call_acquire None None None None 5;
            call_release]
           (__init__ granting empty_world)).
  reflexivity.
Defined.

(** X9.  Every thread the handle starts is well started: made for a
    positive [timer_ttl] (so its loop never runs with a pause of zero or
    less), flagged active, and a daemon.  This holds for all the threads
    started by any sequence of calls, when it held for those started
    before. *)
Theorem started_threads_are_well_started
    (C : collaborator) (ms : list method) (st : state) :
  Forall well_started (started (fst st)) ->
  Forall well_started (started (fst (invoke_all C ms st))).
Proof.
  revert st. induction ms as [| m later IH]; intros st Hbefore.
  - exact Hbefore.
  - cbn [invoke_all]. apply IH.
    destruct (invoke_frame C m st) as [_ [more [Hstarted Hmore]]].
    rewrite Hstarted. apply Forall_app. now split.
Qed.

Lemma started_threads_are_well_started_witness :
  Forall well_started
    (started
       (fst (invoke_all granting
               [call_with job_1 None None (Some 30) 5 None;
                call_acquire None None None (Some 10) 10;
                call_with None None None (Some 12) 5 (Some LockFailure)]
               (__init__ granting empty_world)))).
Proof.
  apply (started_threads_are_well_started granting
           [call_with job_1 None None (Some 30) 5 None;
            call_acquire None None None (Some 10) 10;
            call_with None None None (Some 12) 5 (Some LockFailure)]
           (__init__ granting empty_world)).
  constructor.
Defined.

(** ** More on the renewal loop *)

(** X10.  The [renew] calls of the loop are, in order, one for each pass
    that finds the flag set, each for the session id the handle holds at
    that pass (read from the handle anew, not captured when the thread was
    made) and with the answer it got. *)
Theorem renew_calls_follow_the_passes
    (timer_ttl : Z) (schedule : list observation) :
  filter is_renew_call (fst (renew timer_ttl schedule))
  = map (fun o => renew_call (seen_session_id o) (renew_answer o))
      (live_passes schedule).
Proof.
  induction schedule as [| o later IH]; cbn [renew live_passes fst];
    [reflexivity |].
  destruct (seen_active o); cbn [fst]; [| reflexivity].
  rewrite filter_app, IH. cbn [map].
  destruct (renew_answer o); reflexivity.
Qed.

(** X11.  The loop is left at the first pass that finds the flag cleared:
    what the schedule holds after it is never read, the events are those of
    the passes before followed by one ceasing line, and no [renew] and no
    pause follows that line. *)
Theorem renew_stops_at_first_cleared_flag
    (timer_ttl : Z) (before : list observation) (off : observation)
    (after : list observation) :
  Forall (fun o => seen_active o = true) before ->
  seen_active off = false ->
  renew timer_ttl (before ++ off :: after)
  = ((fst (renew timer_ttl before)
      ++ [log_ceasing (seen_item off) (seen_session_id off)])%list,
     true)
  /\ snd (renew timer_ttl before) = false.
Proof.
  intros Hlive Hoff.
  induction Hlive as [| o later Ho _ [IHrun IHopen]].
  - cbn [app renew fst snd]. now rewrite Hoff.
  - cbn [app renew]. rewrite Ho, IHrun. cbn [fst snd].
    split; [| exact IHopen].
    f_equal. cbn [app]. do 2 f_equal. apply app_assoc.
Qed.

Lemma renew_stops_at_first_cleared_flag_witness :
  let off :=
    {| seen_active := false;
       seen_item := None;
       seen_session_id := None;
       renew_answer := true |} in
  renew 25 [renew_fails; off; renew_fails]
  = ([log_renewing (Some "consulate/locks/job-1") (Some "session-0") 25;
      renew_call (Some "session-0") false;
      log_ceasing None None],
     true).
Proof.
  intros off.
  refine (proj1
            (renew_stops_at_first_cleared_flag 25 [renew_fails] off
               [renew_fails] _ _)).
  - constructor; [reflexivity | constructor].
  - reflexivity.
Defined.

(** X12.  The time the loop sleeps in all is [timer_ttl] for each renewal
    that succeeded on a pass that found the flag set; a failed renewal
    adds no pause. *)
Theorem renew_sleeps_once_per_success
    (timer_ttl : Z) (schedule : list observation) :
  slept (fst (renew timer_ttl schedule))
  = timer_ttl
    * Z.of_nat (List.length (filter renew_answer (live_passes schedule))).
Proof.
  assert (Hslept_app : forall l l',
             slept (l ++ l') = slept l + slept l').
  { induction l as [| e l IH]; intros l'; [reflexivity |].
    cbn [app slept]. destruct e; rewrite ?IH; lia. }
  induction schedule as [| o later IH]; cbn [renew live_passes fst].
  - cbn. lia.
  - destruct (seen_active o); cbn [fst].
    + rewrite Hslept_app, IH. cbn [filter].
      destruct (renew_answer o); cbn [slept List.length]; lia.
    + cbn. lia.
Qed.

(** ** Defaults and repeated acquisition *)

(** X13.  A call of [acquire] that leaves [behavior] out creates its
    session with behavior [None]: [acquire] hands its own default on, so
    the ['release'] default of [_acquire] applies only when [_acquire] is
    called directly. *)
Theorem acquire_hands_on_no_behavior
    (C : collaborator) (key value : option (option string))
    (ttl : option (option Z)) (renew_before_ttl : option Z) (st : state) :
  ttl_allowed (or_default None ttl) ->
  (exists sid,
      hd_error
        (new_calls st
           (snd (before_yield
                   (acquire_with_defaults C key value None ttl renew_before_ttl)
                   st)))
      = Some (session_create None (ttl_argument (or_default None ttl)) sid))
  /\ (exists sid,
         hd_error
           (new_calls st
              (snd (_acquire_with_defaults C key value None ttl
                      renew_before_ttl st)))
         = Some (session_create (Some "release")
                   (ttl_argument (or_default None ttl)) sid)).
Proof.
  intros Hok.
  unfold acquire_with_defaults, _acquire_with_defaults, acquire.
  cbn [before_yield or_default].
  split; eexists; rewrite _acquire_outcome by exact Hok;
    (destruct (write_granted _ _ _ _ _ _); cbn [snd];
     [rewrite new_calls_after_grant | rewrite new_calls_after_refusal];
     reflexivity).
Qed.

Lemma acquire_hands_on_no_behavior_witness :
  exists sid,
    hd_error
      (new_calls (__init__ granting empty_world)
         (snd (before_yield
                 (acquire_with_defaults granting (Some job_1) None None
                    None None)
                 (__init__ granting empty_world))))
    = Some (session_create None None sid).
Proof.
  exact (proj1
           (acquire_hands_on_no_behavior granting (Some job_1) None None None
              (__init__ granting empty_world) I)).
Defined.

(** X14.  A second [_acquire] on a handle that was not released takes the
    place of the first: the handle forgets the first session.  The
    [_release] that follows destroys the second session, once, and the
    first session is destroyed by none of the calls made. *)
Theorem second_acquire_orphans_the_first_session
    (C : collaborator) (k1 v1 b1 : option string) (t1 : option Z) (r1 : Z)
    (k2 v2 b2 : option string) (t2 : option Z) (r2 : Z)
    (st st1 st2 : state) (sid1 sid2 : string) (th : StoppableThread.t) :
  _acquire C k1 v1 b1 t1 r1 st = (Return tt, st1) ->
  _acquire C k2 v2 b2 t2 r2 st1 = (Return tt, st2) ->
  _session_id (snd st1) = Some sid1 ->
  _session_id (snd st2) = Some sid2 ->
  sid1 <> sid2 ->
  _ttl_timer (snd st2) = Some th ->
  let st3 := snd (_release C st2) in
  fst (_release C st2) = Return tt
  /\ _session_id (snd st3) = None
  /\ filter (is_destroy_of sid1) (new_calls st st3) = []
  /\ List.length (filter (is_destroy_of sid2) (new_calls st st3)) = 1%nat.
Proof.
  intros Hfirst Hsecond Hsid1 Hsid2 Hdiff Htimer st3. subst st3.
  destruct (_acquire_cases C k1 v1 b1 t1 r1 st _ _ Hfirst)
    as [[n [_ [_ [_ Hr]]]] | [[_ [_ [_ Hst1]]] | [_ [_ [Hr _]]]]];
    [discriminate Hr | | discriminate Hr].
  destruct (_acquire_cases C k2 v2 b2 t2 r2 st1 _ _ Hsecond)
    as [[n [_ [_ [_ Hr]]]] | [[_ [_ [_ Hst2]]] | [_ [_ [Hr _]]]]];
    [discriminate Hr | | discriminate Hr].
  assert (Hitem : _item (snd st2) = Some (new_item C k2 st1))
    by (rewrite Hst2; apply item_after_grant).
  rewrite (_release_with_timer C st2 th _ Htimer Hitem).
  cbn [fst snd _session_id].
  split; [reflexivity |]. split; [reflexivity |].
  assert (Hcalls :
            new_calls st
              ({| calls := calls (fst st2)
                           ++ [release_write C st2; release_delete C st2;
                               release_destroy C st2];
                  started := started (fst st2);
                  uuids := uuids (fst st2) |},
               {| _session_id := None;
                  _ttl_timer := Some (StoppableThread.set_active false th);
                  _item := None;
                  _prefix := _prefix (snd st2) |})
            = [create_call C b1 t1 st; write_call C k1 v1 b1 t1 st;
               create_call C b2 t2 st1; write_call C k2 v2 b2 t2 st1;
               release_write C st2; release_delete C st2;
               release_destroy C st2]).
  { unfold new_calls. cbn [fst calls].
    rewrite Hst2 at 1. rewrite calls_after_grant.
    rewrite Hst1 at 1. rewrite calls_after_grant.
    rewrite <- !app_assoc. rewrite skipn_length_app. reflexivity. }
  rewrite Hcalls.
  unfold create_call, write_call, release_write, release_delete,
    release_destroy.
  rewrite Hsid2. cbn [filter is_destroy_of].
  rewrite String.eqb_refl.
  assert (Hneq : (sid2 =? sid1)%string = false)
    by (apply String.eqb_neq; congruence).
  rewrite Hneq. split; reflexivity.
Qed.

Lemma second_acquire_orphans_the_first_session_witness :
  let st := __init__ granting empty_world in
  let st1 := snd (_acquire granting job_1 None None (Some 30) 5 st) in
  let st2 := snd (_acquire granting None None None None 5 st1) in
  filter (is_destroy_of "session-0")
    (new_calls st (snd (_release granting st2)))
  = [].
Proof.
  intros st st1 st2.
  refine (proj1 (proj2 (proj2
            (second_acquire_orphans_the_first_session granting
               job_1 None None (Some 30) 5 None None None None 5
               st st1 st2 "session-0" "session-2" (renewal_thread 25)
               _ _ _ _ _ _)))).
  - vm_compute. reflexivity.
  - vm_compute. reflexivity.
  - reflexivity.
  - vm_compute. reflexivity.
  - discriminate.
  - reflexivity.
Defined.
